(** * libxenbe display backend: display interface and DRM device detector

    A shallow embedding of
      - [src/displayBackend/DisplayItf.hpp]       (class [Exception])
      - [src/displayBackend/drm/DrmDetector.cpp]  ([drmFdGuard], [isDrmDevice],
                                                   [detectDrmDevice])
    together with the properties of the detector that the design document
    of the backend states.

    The detector talks to libudev, to the kernel ([open], [close]) and to
    libdrm.  These are modelled by a record [World] that answers every
    query the code makes, and by an operating-system state [OS] holding the
    descriptor table of the process and the chronological list of the calls
    made so far.  The C++ code becomes a computation in the state monad
    [M] over [OS]; destructors of scope-bound objects are written out at
    the place where C++ runs them. *)

From Stdlib Require Import ZArith String Ascii.
From stdpp Require Import gmap strings list.

Local Open Scope Z_scope.

(** ** DisplayItf.hpp *)

Module DisplayItf.

(** [std::string::c_str()]: the characters of the string followed by the
    terminating NUL. *)
Definition c_str (s : string) : list ascii :=
  list_ascii_of_string s ++ [Ascii.zero].

(** [class Exception : public std::exception], one private member. *)
Record Exception := mkException { mMsg : string }.

(** [explicit Exception(const std::string& msg) : mMsg(msg) {}] *)
Definition Exception_ctor (msg : string) : Exception :=
  {| mMsg := msg |}.

(** [const char* what() const throw() { return mMsg.c_str(); }]
    The result is the buffer the returned pointer designates. *)
Definition what (e : Exception) : list ascii := c_str (mMsg e).

(** What a reader of a [const char*] sees: the characters before the
    first NUL. *)
Fixpoint read_cstr (buf : list ascii) : string :=
  match buf with
  | [] => EmptyString
  | c :: rest =>
      if Ascii.eqb c Ascii.zero then EmptyString
      else String c (read_cstr rest)
  end.

End DisplayItf.

(** ** DrmDetector.cpp *)

Module Drm.

(** *** Constants of <fcntl.h>

    The header is not part of the repository; the values are those of
    Linux (asm-generic/fcntl.h: 02, 04000 and 02000000 in octal). *)
Definition O_RDWR : Z := 2.
Definition O_NONBLOCK : Z := 2048.
Definition O_CLOEXEC : Z := 524288.

(** *** [atoi] of the C library

    [atoi(nptr)] is [(int) strtol(nptr, NULL, 10)] (glibc, on a platform
    with a 64-bit [long] and a 32-bit [int]).  [strtol] skips white space,
    reads an optional sign, then decimal digits up to the first other
    character; a value that does not fit a [long] is replaced by
    [LONG_MAX] or [LONG_MIN].  The conversion to [int] keeps the low 32
    bits, read in two's complement. *)
Definition LONG_MAX : Z := 2 ^ 63 - 1.
Definition LONG_MIN : Z := - 2 ^ 63.

Definition isspace (c : ascii) : bool :=
  let n := Z.of_nat (nat_of_ascii c) in
  (n =? 32) || ((9 <=? n) && (n <=? 13)).

Definition digit_val (c : ascii) : option Z :=
  let n := Z.of_nat (nat_of_ascii c) in
  if (48 <=? n) && (n <=? 57) then Some (n - 48) else None.

Fixpoint skip_space (s : string) : string :=
  match s with
  | String c s' => if isspace c then skip_space s' else s
  | EmptyString => s
  end.

(** The magnitude of the digits read, saturating at [2 ^ 63], the
    magnitude of [LONG_MIN]. *)
Fixpoint strtol_digits (acc : Z) (s : string) : Z :=
  match s with
  | String c s' =>
      match digit_val c with
      | Some d => strtol_digits (Z.min (10 * acc + d) (2 ^ 63)) s'
      | None => acc
      end
  | EmptyString => acc
  end.

Definition strtol (s : string) : Z :=
  match skip_space s with
  | String "-"%char s' => - strtol_digits 0 s'
  | String "+"%char s' => Z.min (strtol_digits 0 s') LONG_MAX
  | s' => Z.min (strtol_digits 0 s') LONG_MAX
  end.

(** The conversion of a [long] to [int]. *)
Definition int_of_long (z : Z) : Z := (z + 2 ^ 31) mod 2 ^ 32 - 2 ^ 31.

Definition atoi (s : string) : Z := int_of_long (strtol s).

(** *** Data of libdrm and libudev that the detector reads *)

(** The three fields of [drmModeRes] the detector looks at ([int]s). *)
Record drmModeRes := mkRes {
  count_crtcs : Z;
  count_connectors : Z;
  count_encoders : Z
}.

(** A [udev_device]; both getters may return a null pointer. *)
Record udev_device := mkDevice {
  udev_device_get_devnode : option string;
  udev_device_get_sysnum : option string
}.

(** Everything outside the process, as the detector can observe it during
    one call (the probe is a point-in-time one: the answers do not change
    while it runs). *)
Record World := mkWorld {
  (** does [udev_new()] return a context? *)
  udev_new : bool;
  (** does [udev_enumerate_new(udev)] return an enumerator? *)
  udev_enumerate_new : bool;
  (** return codes, 0 on success *)
  udev_enumerate_add_match_subsystem : string -> Z;
  udev_enumerate_add_match_sysname : string -> Z;
  udev_enumerate_scan_devices : Z;
  (** the scanned list, each entry with [udev_list_entry_get_name] of it
      ([None] is a null name) *)
  udev_enumerate_get_list_entry : list (option string);
  (** [None] is a null device *)
  udev_device_new_from_syspath : string -> option udev_device;
  (** does [open(path, flags)] succeed? *)
  openable : string -> Z -> bool;
  (** [drmModeGetResources] on a descriptor of this node; [None] is a
      null result *)
  drm_resources : string -> option drmModeRes
}.

(** *** The process: descriptor table and calls made *)

Inductive event : Type :=
| EvOpen (path : string) (flags : Z) (ret : Z)
| EvGetResources (fd : Z)
| EvFreeResources
| EvClose (fd : Z).

Record OS := mkOS {
  (** open descriptors, each with the node it was opened on *)
  fds : gmap Z string;
  (** calls made so far, oldest first *)
  trace : list event
}.

Definition M (A : Type) : Type := OS -> A * OS.

Definition ret {A} (a : A) : M A := fun σ => (a, σ).

Definition bind {A B} (m : M A) (k : A -> M B) : M B :=
  fun σ => let (a, σ') := m σ in k a σ'.

Declare Scope drm_scope.
Delimit Scope drm_scope with drm.
Notation "x <~ c ;; k" := (bind c (fun x => k))
  (at level 100, c at level 60, right associativity) : drm_scope.
Notation "c ;;; k" := (bind c (fun _ => k))
  (at level 100, right associativity) : drm_scope.
Local Open Scope drm_scope.

Definition log_event (ev : event) : M unit :=
  fun σ => (tt, {| fds := fds σ; trace := trace σ ++ [ev] |}).

(** The kernel hands out the lowest descriptor number that is not in
    use.  A table of [n] descriptors has a free number among [0 .. n]. *)
Definition lowest_free (t : gmap Z string) : Z :=
  from_option snd (Z.of_nat (size t))
    (list_find (fun k => t !! k = None) (seqZ 0 (Z.of_nat (size t)))).

Section Detector.

Variable w : World.

(** [open(path, flags)]: a new descriptor, or -1. *)
Definition sys_open (path : string) (flags : Z) : M Z :=
  fun σ =>
    if openable w path flags then
      let fd := lowest_free (fds σ) in
      (fd, {| fds := <[fd := path]> (fds σ);
              trace := trace σ ++ [EvOpen path flags fd] |})
    else
      (-1, {| fds := fds σ;
              trace := trace σ ++ [EvOpen path flags (-1)] |}).

(** [drmClose(fd)] is [close(fd)]. *)
Definition drmClose (fd : Z) : M unit :=
  fun σ =>
    (tt, {| fds := delete fd (fds σ); trace := trace σ ++ [EvClose fd] |}).

(** [drmModeGetResources(fd)]: fails on a descriptor that is not open. *)
Definition drmModeGetResources (fd : Z) : M (option drmModeRes) :=
  fun σ =>
    (match fds σ !! fd with
     | Some node => drm_resources w node
     | None => None
     end,
     {| fds := fds σ; trace := trace σ ++ [EvGetResources fd] |}).

Definition drmModeFreeResources : M unit := log_event EvFreeResources.

(** [~drmFdGuard() { if (mFd > 0) { drmClose(mFd); } }] *)
Definition drmFdGuard_dtor (mFd : Z) : M unit :=
  if 0 <? mFd then drmClose mFd else ret tt.

(** [static bool isDrmDevice(udev_device* device, XenBackend::Log& log)]

    [fd] and [res] are scope-bound: on every return after their
    construction the deleter of [res] runs if [res] is not null, then the
    destructor of [fd]. *)
Definition isDrmDevice (device : udev_device) : M bool :=
  match udev_device_get_devnode device, udev_device_get_sysnum device with
  | Some filename, Some sysnum =>
      if atoi sysnum <? 0 then ret false
      else
        fd <~ sys_open filename (Z.lor O_RDWR O_CLOEXEC) ;;
        r <~ (if fd <? 0 then ret false
              else
                res <~ drmModeGetResources fd ;;
                match res with
                | None => ret false
                | Some res =>
                    let r :=
                      if (count_crtcs res <=? 0)
                         || (count_connectors res <=? 0)
                         || (count_encoders res <=? 0)
                      then false else true in
                    drmModeFreeResources ;;; ret r
                end) ;;
        drmFdGuard_dtor fd ;;;
        ret r
  | _, _ => ret false
  end.

(** How a call of the detector ends: with its [std::string] result, or with
    a C++ exception leaving it. *)
Inductive outcome : Type :=
| Returned (s : string)
| Raised (what : string).

(** The conversion [const char*] to [std::string] of a [return]
    statement.  The constructor of [std::string] throws [std::logic_error]
    on a null pointer (libstdc++). *)
Definition std_string (p : option string) : outcome :=
  match p with
  | Some s => Returned s
  | None => Raised "basic_string: construction from null is not valid"
  end.

(** The body of [udev_list_entry_foreach (entry, ...)] in [detectDrmDevice],
    followed by the two statements after the loop.  [device] is
    scope-bound; its deleter touches neither descriptors nor libdrm. *)
Fixpoint foreach_entry (entries : list (option string)) : M outcome :=
  match entries with
  | [] => ret (Returned "")
  | entry :: rest =>
      match entry with
      | None => foreach_entry rest
      | Some path =>
          match udev_device_new_from_syspath w path with
          | None => foreach_entry rest
          | Some device =>
              b <~ isDrmDevice device ;;
              if b then ret (std_string (udev_device_get_devnode device))
              else foreach_entry rest
          end
      end
  end.

(** [std::string detectDrmDevice()]

    The messages written through [XenBackend::Log] are left out: the logger
    is an external collaborator and no branch depends on it. *)
Definition detectDrmDevice : M outcome :=
  if negb (udev_new w) then ret (Returned "")
  else if negb (udev_enumerate_new w) then ret (Returned "")
  else if negb (udev_enumerate_add_match_subsystem w "drm" =? 0)
  then ret (Returned "")
  else if negb (udev_enumerate_add_match_sysname w "card[0-9]*" =? 0)
  then ret (Returned "")
  else if negb (udev_enumerate_scan_devices w =? 0) then ret (Returned "")
  else foreach_entry (udev_enumerate_get_list_entry w).

End Detector.

(** *** Vocabulary of the properties *)

(** All five preparation steps of [detectDrmDevice] succeed. *)
Definition setup_ok (w : World) : bool :=
  udev_new w && udev_enumerate_new w
  && (udev_enumerate_add_match_subsystem w "drm" =? 0)
  && (udev_enumerate_add_match_sysname w "card[0-9]*" =? 0)
  && (udev_enumerate_scan_devices w =? 0).

(** A device passes validation: it has a device node and a sysnum that
    reads as a number that is not negative. *)
Definition valid_device (d : udev_device) : option string :=
  match udev_device_get_devnode d, udev_device_get_sysnum d with
  | Some filename, Some sysnum =>
      if 0 <=? atoi sysnum then Some filename else None
  | _, _ => None
  end.

(** A resource description with at least one controller, one output and
    one encoder. *)
Definition has_pipeline (r : drmModeRes) : bool :=
  (1 <=? count_crtcs r) && (1 <=? count_connectors r)
  && (1 <=? count_encoders r).

(** The device behind an enumerated entry, if the entry has a name and
    libudev can build the device. *)
Definition entry_device (w : World) (entry : option string)
  : option udev_device :=
  match entry with
  | Some path => udev_device_new_from_syspath w path
  | None => None
  end.

(** A device qualifies: it is valid, its node can be opened read-write and
    its resource description shows a display pipeline.  The result is the
    path of its node. *)
Definition qualifies (w : World) (d : udev_device) : option string :=
  match valid_device d with
  | Some filename =>
      if openable w filename (Z.lor O_RDWR O_CLOEXEC) then
        match drm_resources w filename with
        | Some r => if has_pipeline r then Some filename else None
        | None => None
        end
      else None
  | None => None
  end.

(** The node of the first enumerated entry that qualifies. *)
Fixpoint first_qualifying (w : World) (entries : list (option string))
  : option string :=
  match entries with
  | [] => None
  | entry :: rest =>
      match entry_device w entry with
      | Some d =>
          match qualifies w d with
          | Some filename => Some filename
          | None => first_qualifying w rest
          end
      | None => first_qualifying w rest
      end
  end.

(** The [open] calls in a list of events, as (path, flags). *)
Definition opens (tr : list event) : list (string * Z) :=
  omap (fun ev => match ev with
                  | EvOpen path flags _ => Some (path, flags)
                  | _ => None
                  end) tr.

(** An entry the detector passes over: it has no device, or its device
    does not qualify. *)
Definition rejects (w : World) (entry : option string) : bool :=
  match entry_device w entry with
  | Some d => match qualifies w d with Some _ => false | None => true end
  | None => true
  end.

(** The world [w] with another scanned list. *)
Definition with_entries (w : World) (entries : list (option string))
  : World :=
  {| udev_new := udev_new w;
     udev_enumerate_new := udev_enumerate_new w;
     udev_enumerate_add_match_subsystem :=
       udev_enumerate_add_match_subsystem w;
     udev_enumerate_add_match_sysname := udev_enumerate_add_match_sysname w;
     udev_enumerate_scan_devices := udev_enumerate_scan_devices w;
     udev_enumerate_get_list_entry := entries;
     udev_device_new_from_syspath := udev_device_new_from_syspath w;
     openable := openable w;
     drm_resources := drm_resources w |}.

(** The entries that have a name and a device. *)
Definition resolved (w : World) (entries : list (option string))
  : list (option string) :=
  filter (fun e => is_Some (entry_device w e)) entries.

(** The node the detector opens for an enumerated entry: the device node
    of its device, when the entry has a device and the device passes
    validation. *)
Definition entry_node (w : World) (entry : option string) : option string :=
  match entry_device w entry with
  | Some d => valid_device d
  | None => None
  end.

(** A string of decimal digits only, as libudev derives a sysnum from the
    trailing digits of a sysname. *)
Fixpoint all_digits (s : string) : bool :=
  match s with
  | EmptyString => true
  | String c s' =>
      match digit_val c with
      | Some _ => all_digits s'
      | None => false
      end
  end.

(** The call protocol of the detector, as a monitor over the calls it
    makes.  [Idle]: no descriptor is being probed.  [Opened fd]: [open]
    has just returned [fd].  [Queried fd]: [drmModeGetResources] was called
    on it.  [Released fd]: the resource description was freed. *)
Inductive probe_state : Type :=
| Idle
| Opened (fd : Z)
| Queried (fd : Z)
| Released (fd : Z).

(** A probe is over: nothing is being probed, or the descriptor probed is
    one the guard does not close (it is not above 0). *)
Definition settled (s : probe_state) : bool :=
  match s with
  | Idle => true
  | Opened _ => false
  | Queried fd | Released fd => negb (0 <? fd)
  end.

(** One call, checked against the protocol: [open] only when the probe
    before is over; [drmModeGetResources] only on the descriptor just
    opened; the description freed only after the query; [close] only on
    the descriptor probed, once, after the query, and only above 0. *)
Definition protocol_step (s : probe_state) (ev : event)
  : option probe_state :=
  match ev with
  | EvOpen _ _ ret =>
      if settled s then Some (if ret <? 0 then Idle else Opened ret)
      else None
  | EvGetResources fd =>
      match s with
      | Opened fd' => if fd =? fd' then Some (Queried fd) else None
      | _ => None
      end
  | EvFreeResources =>
      match s with
      | Queried fd => Some (Released fd)
      | _ => None
      end
  | EvClose fd =>
      match s with
      | Queried fd' | Released fd' =>
          if (fd =? fd') && (0 <? fd) then Some Idle else None
      | _ => None
      end
  end.

Fixpoint protocol_run (s : probe_state) (tr : list event)
  : option probe_state :=
  match tr with
  | [] => Some s
  | ev :: tr' =>
      match protocol_step s ev with
      | Some s' => protocol_run s' tr'
      | None => None
      end
  end.

(** *** Sample worlds *)

Definition card0 : udev_device :=
  {| udev_device_get_devnode := Some "/dev/dri/card0";
     udev_device_get_sysnum := Some "0" |}.

Definition card1 : udev_device :=
  {| udev_device_get_devnode := Some "/dev/dri/card1";
     udev_device_get_sysnum := Some "1" |}.

Definition sys_card0 : string := "/sys/devices/platform/gpu/drm/card0".
Definition sys_card1 : string := "/sys/devices/platform/vkms/drm/card1".

(** A host with two cards; [card0] opens only when [open0] holds, and
    [res0] and [res1] are what libdrm reports for the two nodes. *)
Definition host (open0 : bool) (res0 res1 : option drmModeRes) : World :=
  {| udev_new := true;
     udev_enumerate_new := true;
     udev_enumerate_add_match_subsystem := fun _ => 0;
     udev_enumerate_add_match_sysname := fun _ => 0;
     udev_enumerate_scan_devices := 0;
     udev_enumerate_get_list_entry := [Some sys_card0; Some sys_card1];
     udev_device_new_from_syspath := fun p =>
       if String.eqb p sys_card0 then Some card0
       else if String.eqb p sys_card1 then Some card1
       else None;
     openable := fun p _ =>
       if String.eqb p "/dev/dri/card0" then open0 else true;
     drm_resources := fun p =>
       if String.eqb p "/dev/dri/card0" then res0 else res1 |}.

Definition kms : drmModeRes :=
  {| count_crtcs := 2; count_connectors := 1; count_encoders := 1 |}.

(** A process with standard input, output and error open. *)
Definition stdio : OS :=
  {| fds := <[0 := "/dev/null"]> (<[1 := "/dev/pts/0"]>
              (<[2 := "/dev/pts/0"]> ∅));
     trace := [] |}.

(** A process started with standard input closed. *)
Definition no_stdin : OS :=
  {| fds := <[1 := "/var/log/displ_be.log"]>
              (<[2 := "/var/log/displ_be.log"]> ∅);
     trace := [] |}.

End Drm.

Module DrmFacts.
Import Drm.

Lemma lowest_free_fresh (t : gmap Z string) : t !! lowest_free t = None.
Proof.
  unfold lowest_free.
  destruct (list_find _ _) as [[i k]|] eqn:Hfind; simpl.
  - apply list_find_Some in Hfind. tauto.
  - apply list_find_None in Hfind.
    destruct (t !! Z.of_nat (size t)) as [node|] eqn:Hlast; [|done].
    exfalso.
    assert (Hsub : list_to_set (seqZ 0 (Z.of_nat (S (size t)))) ⊆ dom t).
    { intros k Hk. apply elem_of_list_to_set, elem_of_seqZ in Hk.
      apply elem_of_dom.
      destruct (decide (k = Z.of_nat (size t))) as [->|Hne]; [by eexists|].
      rewrite Forall_forall in Hfind.
      destruct (t !! k) eqn:Hk'; [by eexists|].
      exfalso. apply (Hfind k); [|done].
      apply elem_of_seqZ. lia. }
    apply subseteq_size in Hsub.
    rewrite size_list_to_set in Hsub by apply NoDup_seqZ.
    rewrite length_seqZ, size_dom in Hsub. lia.
Qed.

Lemma lowest_free_nonneg (t : gmap Z string) : 0 <= lowest_free t.
Proof.
  unfold lowest_free.
  destruct (list_find _ _) as [[i k]|] eqn:Hfind; simpl; [|lia].
  apply list_find_Some in Hfind. destruct Hfind as (Hk & _ & _).
  apply list_elem_of_lookup_2, elem_of_seqZ in Hk. lia.
Qed.

Lemma lowest_free_pos (t : gmap Z string) :
  is_Some (t !! 0) -> 0 < lowest_free t.
Proof.
  intros [node H0].
  pose proof (lowest_free_nonneg t) as Hge.
  pose proof (lowest_free_fresh t) as Hfr.
  destruct (decide (lowest_free t = 0)) as [Heq|]; [|lia].
  rewrite Heq in Hfr. congruence.
Qed.

Lemma lowest_free_zero (t : gmap Z string) :
  t !! 0 = None -> lowest_free t = 0.
Proof.
  intros H0. unfold lowest_free.
  destruct (list_find _ _) as [[i k]|] eqn:Hfind; simpl.
  - apply list_find_Some in Hfind. destruct Hfind as (Hk & _ & Hmin).
    destruct i as [|i].
    + destruct (size t); simpl in Hk; [done|].
      rewrite seqZ_cons in Hk by lia. simpl in Hk. congruence.
    + exfalso. assert (Hz : seqZ 0 (Z.of_nat (size t)) !! 0%nat = Some 0).
      { apply lookup_seqZ. apply lookup_lt_Some in Hk. rewrite length_seqZ in Hk. lia. }
      apply (Hmin 0%nat 0 Hz); [lia|done].
  - apply list_find_None in Hfind.
    destruct (size t) eqn:Hs; [done|]. exfalso.
    rewrite Forall_forall in Hfind. apply (Hfind 0); [|done].
    apply elem_of_seqZ. lia.
Qed.

Ltac unfold_probe :=
  unfold isDrmDevice, valid_device, qualifies, has_pipeline, bind, ret,
    sys_open, drmModeGetResources, drmModeFreeResources, log_event,
    drmFdGuard_dtor, drmClose in *.

Section Probe.

Variable w : World.

Lemma valid_device_inv (d : udev_device) (f : string) :
  valid_device d = Some f ->
  udev_device_get_devnode d = Some f /\
  exists s, udev_device_get_sysnum d = Some s /\ 0 <= atoi s.
Proof.
  unfold valid_device.
  destruct (udev_device_get_devnode d) as [f'|]; [|done].
  destruct (udev_device_get_sysnum d) as [s|]; [|done].
  destruct (Z.leb_spec 0 (atoi s)); [|done].
  intros [= ->]. eauto.
Qed.

Lemma valid_device_None (d : udev_device) :
  valid_device d = None <->
  udev_device_get_devnode d = None \/ udev_device_get_sysnum d = None \/
  exists s, udev_device_get_sysnum d = Some s /\ atoi s < 0.
Proof.
  unfold valid_device.
  destruct (udev_device_get_devnode d) as [f'|]; [|naive_solver].
  destruct (udev_device_get_sysnum d) as [s|]; [|naive_solver].
  destruct (Z.leb_spec 0 (atoi s)); [|naive_solver].
  split; [done|]. intros [?|[?|(s' & [= <-] & ?)]]; try done. lia.
Qed.

Lemma isDrmDevice_invalid (d : udev_device) (σ : OS) :
  valid_device d = None -> isDrmDevice w d σ = (false, σ).
Proof.
  unfold_probe.
  destruct (udev_device_get_devnode d) as [f|]; [|done].
  destruct (udev_device_get_sysnum d) as [s|]; [|done].
  destruct (Z.leb_spec 0 (atoi s)), (Z.ltb_spec (atoi s) 0); try done; lia.
Qed.

Lemma isDrmDevice_unopenable (d : udev_device) (f : string) (σ : OS) :
  valid_device d = Some f ->
  openable w f (Z.lor O_RDWR O_CLOEXEC) = false ->
  isDrmDevice w d σ =
    (false, {| fds := fds σ;
               trace := trace σ ++ [EvOpen f (Z.lor O_RDWR O_CLOEXEC) (-1)] |}).
Proof.
  intros (Hf & s & Hs & Hge)%valid_device_inv Hopen.
  unfold_probe. rewrite Hf, Hs.
  destruct (Z.ltb_spec (atoi s) 0); [lia|].
  rewrite Hopen. reflexivity.
Qed.

(** The state a probe of an openable valid node leaves: the descriptor
    [fd] it got is closed again exactly when [0 < fd]. *)
Lemma isDrmDevice_openable (d : udev_device) (f : string) (σ : OS) :
  valid_device d = Some f ->
  openable w f (Z.lor O_RDWR O_CLOEXEC) = true ->
  let fd := lowest_free (fds σ) in
  isDrmDevice w d σ =
    (match drm_resources w f with
     | Some r => has_pipeline r
     | None => false
     end,
     {| fds := if 0 <? fd then fds σ else <[fd := f]> (fds σ);
        trace := trace σ
                 ++ [EvOpen f (Z.lor O_RDWR O_CLOEXEC) fd; EvGetResources fd]
                 ++ match drm_resources w f with
                    | Some _ => [EvFreeResources]
                    | None => []
                    end
                 ++ (if 0 <? fd then [EvClose fd] else []) |}).
Proof.
  intros (Hf & s & Hs & Hge)%valid_device_inv Hopen fd.
  pose proof (lowest_free_nonneg (fds σ)) as Hnn.
  pose proof (lowest_free_fresh (fds σ)) as Hfresh.
  unfold_probe. rewrite Hf, Hs.
  destruct (Z.ltb_spec (atoi s) 0); [lia|].
  rewrite Hopen. fold fd in Hnn, Hfresh |- *.
  destruct (Z.ltb_spec fd 0); [lia|]. simpl.
  rewrite lookup_insert_eq.
  assert (Hpipe : forall r,
    (if (count_crtcs r <=? 0) || (count_connectors r <=? 0)
        || (count_encoders r <=? 0) then false else true)
    = (1 <=? count_crtcs r) && (1 <=? count_connectors r)
      && (1 <=? count_encoders r)).
  { intros r.
    destruct (Z.leb_spec (count_crtcs r) 0), (Z.leb_spec 1 (count_crtcs r)),
      (Z.leb_spec (count_connectors r) 0), (Z.leb_spec 1 (count_connectors r)),
      (Z.leb_spec (count_encoders r) 0), (Z.leb_spec 1 (count_encoders r));
      simpl; try reflexivity; lia. }
  destruct (drm_resources w f) as [r|]; simpl;
    destruct (Z.ltb_spec 0 fd); simpl; rewrite ?Hpipe, <- ?app_assoc; simpl;
    rewrite ?delete_insert_eq, ?delete_id by done; reflexivity.
Qed.

End Probe.

Section Enumeration.

Variable w : World.

Lemma foreach_entry_null_name (rest : list (option string)) (σ : OS) :
  foreach_entry w (None :: rest) σ = foreach_entry w rest σ.
Proof. reflexivity. Qed.

Lemma foreach_entry_null_device (path : string) (rest : list (option string))
    (σ : OS) :
  udev_device_new_from_syspath w path = None ->
  foreach_entry w (Some path :: rest) σ = foreach_entry w rest σ.
Proof. intros H. simpl. rewrite H. reflexivity. Qed.

Lemma foreach_entry_unresolved (entry : option string)
    (rest : list (option string)) (σ : OS) :
  entry_device w entry = None ->
  foreach_entry w (entry :: rest) σ = foreach_entry w rest σ.
Proof.
  destruct entry as [path|]; simpl; intros H; [rewrite H|]; reflexivity.
Qed.

Lemma foreach_entry_device (entry : option string) (d : udev_device)
    (rest : list (option string)) (σ : OS) :
  entry_device w entry = Some d ->
  foreach_entry w (entry :: rest) σ =
    let (b, σ') := isDrmDevice w d σ in
    if b then (std_string (udev_device_get_devnode d), σ')
    else foreach_entry w rest σ'.
Proof.
  destruct entry as [path|]; simpl; [|done]. intros ->.
  unfold bind, ret. destruct (isDrmDevice w d σ) as [[|] σ']; reflexivity.
Qed.

(** What one probe answers, whatever the state it runs in. *)
Lemma isDrmDevice_qualifies (d : udev_device) (σ : OS) :
  fst (isDrmDevice w d σ) =
    match qualifies w d with Some _ => true | None => false end.
Proof.
  unfold qualifies.
  destruct (valid_device d) as [f|] eqn:Hv.
  - destruct (openable w f (Z.lor O_RDWR O_CLOEXEC)) eqn:Ho.
    + rewrite (isDrmDevice_openable w d f σ Hv Ho). simpl.
      destruct (drm_resources w f) as [r|]; [destruct (has_pipeline r)|];
        reflexivity.
    + rewrite (isDrmDevice_unopenable w d f σ Hv Ho). reflexivity.
  - rewrite (isDrmDevice_invalid w d σ Hv). reflexivity.
Qed.

Lemma qualifies_devnode (d : udev_device) (f : string) :
  qualifies w d = Some f -> udev_device_get_devnode d = Some f.
Proof.
  unfold qualifies. destruct (valid_device d) as [f'|] eqn:Hv; [|done].
  apply valid_device_inv in Hv as [Hf _].
  destruct (openable w f' _); [|done].
  destruct (drm_resources w f') as [r|]; [|done].
  destruct (has_pipeline r); [|done].
  congruence.
Qed.

Lemma foreach_entry_result (entries : list (option string)) (σ : OS) :
  fst (foreach_entry w entries σ) =
    Returned (default "" (first_qualifying w entries)).
Proof.
  revert σ. induction entries as [|entry rest IH]; intros σ; [reflexivity|].
  simpl first_qualifying.
  destruct (entry_device w entry) as [d|] eqn:Hd.
  - rewrite (foreach_entry_device entry d rest σ Hd).
    pose proof (isDrmDevice_qualifies d σ) as Hq.
    destruct (isDrmDevice w d σ) as [b σ']. simpl in Hq. subst b.
    destruct (qualifies w d) as [f|] eqn:Hqual; simpl.
    + rewrite (qualifies_devnode d f Hqual). reflexivity.
    + apply IH.
  - rewrite (foreach_entry_unresolved entry rest σ Hd). apply IH.
Qed.

Lemma detectDrmDevice_setup_ok (σ : OS) :
  setup_ok w = true ->
  detectDrmDevice w σ = foreach_entry w (udev_enumerate_get_list_entry w) σ.
Proof.
  unfold setup_ok, detectDrmDevice.
  intros ((((-> & ->)%andb_prop & ->)%andb_prop & ->)%andb_prop & ->)%andb_prop.
  reflexivity.
Qed.

Lemma detectDrmDevice_setup_failed (σ : OS) :
  setup_ok w = false -> detectDrmDevice w σ = (Returned "", σ).
Proof.
  unfold setup_ok, detectDrmDevice, ret.
  destruct (udev_new w), (udev_enumerate_new w),
    (udev_enumerate_add_match_subsystem w "drm" =? 0),
    (udev_enumerate_add_match_sysname w "card[0-9]*" =? 0),
    (udev_enumerate_scan_devices w =? 0); simpl; done.
Qed.

Lemma detectDrmDevice_result (σ : OS) :
  fst (detectDrmDevice w σ) =
    Returned (if setup_ok w
              then default "" (first_qualifying w
                                 (udev_enumerate_get_list_entry w))
              else "").
Proof.
  destruct (setup_ok w) eqn:Hs.
  - rewrite detectDrmDevice_setup_ok by done. apply foreach_entry_result.
  - rewrite detectDrmDevice_setup_failed by done. reflexivity.
Qed.

(** [first_qualifying] finds the first entry that qualifies. *)
Lemma first_qualifying_split (pre post : list (option string))
    (entry : option string) (d : udev_device) (f : string) :
  Forall (fun e => forall d', entry_device w e = Some d' ->
                              qualifies w d' = None) pre ->
  entry_device w entry = Some d ->
  qualifies w d = Some f ->
  first_qualifying w (pre ++ entry :: post) = Some f.
Proof.
  intros Hpre Hd Hq. induction Hpre as [|e pre He _ IH]; simpl.
  - rewrite Hd, Hq. reflexivity.
  - destruct (entry_device w e) as [d'|]; [|exact IH].
    rewrite (He d' eq_refl). exact IH.
Qed.

Lemma first_qualifying_none (entries : list (option string)) :
  Forall (fun e => forall d', entry_device w e = Some d' ->
                              qualifies w d' = None) entries ->
  first_qualifying w entries = None.
Proof.
  induction 1 as [|e rest He _ IH]; simpl; [reflexivity|].
  destruct (entry_device w e) as [d'|]; [|exact IH].
  rewrite (He d' eq_refl). exact IH.
Qed.

(** Descriptors above 0 are as they were after a probe. *)
Lemma isDrmDevice_fds_positive (d : udev_device) (σ : OS) (fd : Z) :
  0 < fd -> fds (snd (isDrmDevice w d σ)) !! fd = fds σ !! fd.
Proof.
  intros Hfd.
  destruct (valid_device d) as [f|] eqn:Hv.
  - destruct (openable w f (Z.lor O_RDWR O_CLOEXEC)) eqn:Ho.
    + rewrite (isDrmDevice_openable w d f σ Hv Ho). simpl.
      destruct (Z.ltb_spec 0 (lowest_free (fds σ))); [done|].
      apply lookup_insert_ne. lia.
    + rewrite (isDrmDevice_unopenable w d f σ Hv Ho). reflexivity.
  - rewrite (isDrmDevice_invalid w d σ Hv). reflexivity.
Qed.

(** With descriptor 0 in use, a probe leaves the table as it found it. *)
Lemma isDrmDevice_fds_stdin (d : udev_device) (σ : OS) :
  is_Some (fds σ !! 0) -> fds (snd (isDrmDevice w d σ)) = fds σ.
Proof.
  intros H0.
  destruct (valid_device d) as [f|] eqn:Hv.
  - destruct (openable w f (Z.lor O_RDWR O_CLOEXEC)) eqn:Ho.
    + rewrite (isDrmDevice_openable w d f σ Hv Ho). simpl.
      pose proof (lowest_free_pos (fds σ) H0).
      destruct (Z.ltb_spec 0 (lowest_free (fds σ))); [done|lia].
    + rewrite (isDrmDevice_unopenable w d f σ Hv Ho). reflexivity.
  - rewrite (isDrmDevice_invalid w d σ Hv). reflexivity.
Qed.

Lemma foreach_entry_fds_stdin (entries : list (option string)) (σ : OS) :
  is_Some (fds σ !! 0) -> fds (snd (foreach_entry w entries σ)) = fds σ.
Proof.
  revert σ. induction entries as [|entry rest IH]; intros σ H0; [reflexivity|].
  destruct (entry_device w entry) as [d|] eqn:Hd.
  - rewrite (foreach_entry_device entry d rest σ Hd).
    pose proof (isDrmDevice_fds_stdin d σ H0) as Hfds.
    destruct (isDrmDevice w d σ) as [[|] σ']; simpl in *; [done|].
    rewrite IH; [done|]. by rewrite Hfds.
  - rewrite (foreach_entry_unresolved entry rest σ Hd). by apply IH.
Qed.

Lemma foreach_entry_fds_positive (entries : list (option string)) (σ : OS)
    (fd : Z) :
  0 < fd -> fds (snd (foreach_entry w entries σ)) !! fd = fds σ !! fd.
Proof.
  intros Hfd. revert σ.
  induction entries as [|entry rest IH]; intros σ; [reflexivity|].
  destruct (entry_device w entry) as [d|] eqn:Hd.
  - rewrite (foreach_entry_device entry d rest σ Hd).
    pose proof (isDrmDevice_fds_positive d σ fd Hfd) as Hfds.
    destruct (isDrmDevice w d σ) as [[|] σ']; simpl in *; [done|].
    by rewrite IH.
  - rewrite (foreach_entry_unresolved entry rest σ Hd). by apply IH.
Qed.

(** Unless descriptor 0 was free when it was called, [detectDrmDevice]
    returns with the descriptor table it was called with, whatever it
    returns. *)
Lemma detectDrmDevice_fds_stdin (σ : OS) :
  is_Some (fds σ !! 0) -> fds (snd (detectDrmDevice w σ)) = fds σ.
Proof.
  intros H0. destruct (setup_ok w) eqn:Hs.
  - rewrite detectDrmDevice_setup_ok by done. by apply foreach_entry_fds_stdin.
  - rewrite detectDrmDevice_setup_failed by done. reflexivity.
Qed.

(** Every descriptor above 0 that [detectDrmDevice] opened is closed when
    it returns. *)
Lemma detectDrmDevice_fds_positive (σ : OS) (fd : Z) :
  0 < fd -> fds (snd (detectDrmDevice w σ)) !! fd = fds σ !! fd.
Proof.
  intros Hfd. destruct (setup_ok w) eqn:Hs.
  - rewrite detectDrmDevice_setup_ok by done.
    by apply foreach_entry_fds_positive.
  - rewrite detectDrmDevice_setup_failed by done. reflexivity.
Qed.

(** With descriptor 0 free, the probe of a valid node that opens gets
    descriptor 0 and returns with it still open on that node, whatever it
    answers. *)
Lemma isDrmDevice_fd0_stays_open (d : udev_device) (f : string) (σ : OS) :
  valid_device d = Some f ->
  openable w f (Z.lor O_RDWR O_CLOEXEC) = true ->
  fds σ !! 0 = None ->
  fds (snd (isDrmDevice w d σ)) = <[0 := f]> (fds σ).
Proof.
  intros Hv Ho H0.
  rewrite (isDrmDevice_openable w d f σ Hv Ho). simpl.
  by rewrite (lowest_free_zero (fds σ) H0).
Qed.

End Enumeration.

Section Traces.

Variable w : World.

Lemma opens_app (l1 l2 : list event) : opens (l1 ++ l2) = opens l1 ++ opens l2.
Proof. apply omap_app. Qed.

(** The [open] calls of one probe: none for a device that fails validation,
    one for a valid device. *)
Lemma isDrmDevice_opens (d : udev_device) (σ : OS) :
  opens (trace (snd (isDrmDevice w d σ))) =
    opens (trace σ)
    ++ match valid_device d with
       | Some f => [(f, Z.lor O_RDWR O_CLOEXEC)]
       | None => []
       end.
Proof.
  destruct (valid_device d) as [f|] eqn:Hv.
  - destruct (openable w f (Z.lor O_RDWR O_CLOEXEC)) eqn:Ho.
    + rewrite (isDrmDevice_openable w d f σ Hv Ho). simpl.
      rewrite opens_app. f_equal.
      destruct (drm_resources w f), (0 <? lowest_free (fds σ)); reflexivity.
    + rewrite (isDrmDevice_unopenable w d f σ Hv Ho). simpl.
      rewrite opens_app. reflexivity.
  - rewrite (isDrmDevice_invalid w d σ Hv). simpl.
    by rewrite app_nil_r.
Qed.

Lemma foreach_entry_with_entries (l entries : list (option string)) (σ : OS) :
  foreach_entry (with_entries w l) entries σ = foreach_entry w entries σ.
Proof.
  revert σ. induction entries as [|[path|] rest IH]; intros σ; simpl;
    [reflexivity| |apply IH].
  destruct (udev_device_new_from_syspath w path) as [d|]; [|apply IH].
  unfold bind. change (isDrmDevice (with_entries w l) d σ)
    with (isDrmDevice w d σ).
  destruct (isDrmDevice w d σ) as [[|] σ']; [reflexivity|apply IH].
Qed.

Lemma foreach_entry_resolved (entries : list (option string)) (σ : OS) :
  foreach_entry w (resolved w entries) σ = foreach_entry w entries σ.
Proof.
  revert σ. unfold resolved.
  induction entries as [|entry rest IH]; intros σ; [reflexivity|].
  destruct (entry_device w entry) as [d|] eqn:Hd.
  - rewrite filter_cons_True by (rewrite Hd; eauto).
    rewrite !(foreach_entry_device w entry d _ σ Hd).
    destruct (isDrmDevice w d σ) as [[|] σ']; [reflexivity|apply IH].
  - rewrite filter_cons_False by (rewrite Hd; intros [? ?]; done).
    rewrite (foreach_entry_unresolved w entry rest σ Hd). apply IH.
Qed.

End Traces.

End DrmFacts.

(** * The properties of the design document *)

Module DisplayItfSpec.
Import DisplayItf.





End DisplayItfSpec.

Module DrmSpec.
Import Drm DrmFacts.

Lemma rejects_true (w : World) (entry : option string) (d : udev_device) :
  rejects w entry = true -> entry_device w entry = Some d ->
  qualifies w d = None.
Proof.
  unfold rejects. intros H Hd. rewrite Hd in H.
  by destruct (qualifies w d).
Qed.

Lemma forallb_rejects (w : World) (entries : list (option string)) :
  forallb (rejects w) entries = true ->
  Forall (fun e => forall d', entry_device w e = Some d' ->
                              qualifies w d' = None) entries.
Proof.
  rewrite forallb_forall, Forall_forall. intros H e He d' Hd'.
  apply (rejects_true w e d'); [|done]. apply H. by apply list_elem_of_In.
Qed.

(** C1.  When its preparation steps succeed, [detectDrmDevice] returns the
    device-node path of the first enumerated entry that qualifies, that
    is, whose device is valid, opens, and has a resource description with
    at least one crtc, one connector and one encoder; it returns the empty
    string when every enumerated entry is rejected. *)
Theorem detectDrmDevice_first_qualifying (w : World) (σ : OS) :
  setup_ok w = true ->
  (forall pre entry post d f,
     udev_enumerate_get_list_entry w = pre ++ entry :: post ->
     forallb (rejects w) pre = true ->
     entry_device w entry = Some d ->
     qualifies w d = Some f ->
     fst (detectDrmDevice w σ) = Returned f)
  /\ (forallb (rejects w) (udev_enumerate_get_list_entry w) = true ->
      fst (detectDrmDevice w σ) = Returned "").
Proof.
  intros Hs. rewrite detectDrmDevice_result, Hs. split.
  - intros pre entry post d f -> Hpre%forallb_rejects Hd Hq.
    by rewrite (first_qualifying_split w pre post entry d f).
  - intros Hall%forallb_rejects.
    by rewrite first_qualifying_none.
Qed.

Lemma detectDrmDevice_first_qualifying_witness :
  fst (detectDrmDevice (host true None (Some kms)) stdio)
  = Returned "/dev/dri/card1"
  /\ fst (detectDrmDevice (host true None None) stdio) = Returned "".
Proof.
  split.
  - apply (proj1 (detectDrmDevice_first_qualifying
                    (host true None (Some kms)) stdio eq_refl)
             [Some sys_card0] (Some sys_card1) [] card1);
      reflexivity.
  - apply (proj2 (detectDrmDevice_first_qualifying
                    (host true None None) stdio eq_refl)).
    reflexivity.
Defined.

(** C2.  [detectDrmDevice] always returns a string and never ends with an
    exception; when creating the udev context or the enumerator fails,
    when registering the subsystem or the sysname match fails, when the
    scan fails, or when no enumerated entry qualifies, the string it
    returns is empty. *)
Theorem detectDrmDevice_never_raises (w : World) (σ : OS) :
  (exists s, fst (detectDrmDevice w σ) = Returned s)
  /\ (udev_new w = false
      \/ udev_enumerate_new w = false
      \/ udev_enumerate_add_match_subsystem w "drm" <> 0
      \/ udev_enumerate_add_match_sysname w "card[0-9]*" <> 0
      \/ udev_enumerate_scan_devices w <> 0
      \/ forallb (rejects w) (udev_enumerate_get_list_entry w) = true ->
      fst (detectDrmDevice w σ) = Returned "").
Proof.
  rewrite detectDrmDevice_result. split; [eauto|].
  intros Hfail. destruct (setup_ok w) eqn:Hs; [|reflexivity].
  unfold setup_ok in Hs.
  apply andb_prop in Hs as [[[[Hu He]%andb_prop Hsub]%andb_prop
                               Hname]%andb_prop Hscan].
  apply Z.eqb_eq in Hsub, Hname, Hscan.
  destruct Hfail as [?|[?|[?|[?|[?|Hall]]]]]; try congruence.
  apply forallb_rejects in Hall.
  by rewrite first_qualifying_none.
Qed.

(** A host on which registering the sysname match fails with -ENOMEM. *)
Lemma detectDrmDevice_never_raises_witness :
  fst (detectDrmDevice
         {| udev_new := true;
            udev_enumerate_new := true;
            udev_enumerate_add_match_subsystem := fun _ => 0;
            udev_enumerate_add_match_sysname := fun _ => -12;
            udev_enumerate_scan_devices := 0;
            udev_enumerate_get_list_entry := [Some sys_card0];
            udev_device_new_from_syspath := fun _ => Some card0;
            openable := fun _ _ => true;
            drm_resources := fun _ => Some kms |} stdio)
  = Returned "".
Proof.
  apply (proj2 (detectDrmDevice_never_raises _ stdio)).
  right; right; right; left. simpl. lia.
Defined.

(** C3.  An entry whose device is valid but whose node cannot be opened is
    passed over: the failed [open] is the only call made for it, and
    enumeration goes on with the next entry in the same descriptor table.
    In particular, when such an entry is followed by an entry that
    qualifies, [detectDrmDevice] returns the path of the latter. *)
Theorem open_failure_skips_candidate (w : World) :
  (forall entry d f rest σ,
     entry_device w entry = Some d ->
     valid_device d = Some f ->
     openable w f (Z.lor O_RDWR O_CLOEXEC) = false ->
     foreach_entry w (entry :: rest) σ =
       foreach_entry w rest
         {| fds := fds σ;
            trace := trace σ
                     ++ [EvOpen f (Z.lor O_RDWR O_CLOEXEC) (-1)] |})
  /\ (forall entry1 d1 f1 entry2 d2 f2 rest σ,
        setup_ok w = true ->
        udev_enumerate_get_list_entry w = entry1 :: entry2 :: rest ->
        entry_device w entry1 = Some d1 ->
        valid_device d1 = Some f1 ->
        openable w f1 (Z.lor O_RDWR O_CLOEXEC) = false ->
        entry_device w entry2 = Some d2 ->
        qualifies w d2 = Some f2 ->
        fst (detectDrmDevice w σ) = Returned f2).
Proof.
  split.
  - intros entry d f rest σ Hd Hv Ho.
    rewrite (foreach_entry_device w entry d rest σ Hd).
    by rewrite (isDrmDevice_unopenable w d f σ Hv Ho).
  - intros entry1 d1 f1 entry2 d2 f2 rest σ Hs Hl Hd1 Hv1 Ho1 Hd2 Hq2.
    rewrite detectDrmDevice_result, Hs, Hl.
    change (entry1 :: entry2 :: rest) with ([entry1] ++ entry2 :: rest).
    rewrite (first_qualifying_split w [entry1] rest entry2 d2 f2); try done.
    constructor; [|constructor].
    intros d' Hd'. assert (d' = d1) as -> by congruence.
    unfold qualifies. by rewrite Hv1, Ho1.
Qed.

Lemma open_failure_skips_candidate_witness :
  foreach_entry (host false (Some kms) (Some kms))
    [Some sys_card0; Some sys_card1] stdio
  = foreach_entry (host false (Some kms) (Some kms)) [Some sys_card1]
      {| fds := fds stdio;
         trace := [EvOpen "/dev/dri/card0" (Z.lor O_RDWR O_CLOEXEC) (-1)] |}
  /\ fst (detectDrmDevice (host false (Some kms) (Some kms)) stdio)
     = Returned "/dev/dri/card1".
Proof.
  split.
  - apply (proj1 (open_failure_skips_candidate
                    (host false (Some kms) (Some kms)))
             (Some sys_card0) card0 "/dev/dri/card0" [Some sys_card1] stdio);
      reflexivity.
  - apply (proj2 (open_failure_skips_candidate
                    (host false (Some kms) (Some kms)))
             (Some sys_card0) card0 "/dev/dri/card0"
             (Some sys_card1) card1 "/dev/dri/card1" [] stdio);
      reflexivity.
Defined.

(** C4.  [isDrmDevice] answers false, without making any call, for every
    device that has no device node, has no sysnum, or whose sysnum reads
    as a negative number; a device with a device node and a sysnum that
    reads as a number that is not negative goes on to the [open] call on
    its node. *)
Theorem validation_rejects_invalid_entries (w : World) (d : udev_device)
    (σ : OS) :
  (udev_device_get_devnode d = None
   \/ udev_device_get_sysnum d = None
   \/ (exists s, udev_device_get_sysnum d = Some s /\ atoi s < 0) ->
   isDrmDevice w d σ = (false, σ))
  /\ (forall f s,
        udev_device_get_devnode d = Some f ->
        udev_device_get_sysnum d = Some s ->
        0 <= atoi s ->
        exists fd rest,
          trace (snd (isDrmDevice w d σ)) =
            trace σ ++ EvOpen f (Z.lor O_RDWR O_CLOEXEC) fd :: rest).
Proof.
  split.
  - intros H%valid_device_None. by apply isDrmDevice_invalid.
  - intros f s Hf Hs Hge.
    assert (Hv : valid_device d = Some f).
    { unfold valid_device. rewrite Hf, Hs.
      by destruct (Z.leb_spec 0 (atoi s)); [|lia]. }
    destruct (openable w f (Z.lor O_RDWR O_CLOEXEC)) eqn:Ho.
    + rewrite (isDrmDevice_openable w d f σ Hv Ho). simpl. eauto.
    + rewrite (isDrmDevice_unopenable w d f σ Hv Ho). simpl. eauto.
Qed.

Lemma validation_rejects_invalid_entries_witness :
  isDrmDevice (host true (Some kms) None)
    {| udev_device_get_devnode := Some "/dev/dri/card0";
       udev_device_get_sysnum := Some "-1" |} stdio = (false, stdio)
  /\ exists fd rest,
       trace (snd (isDrmDevice (host true (Some kms) None) card0 stdio)) =
         trace stdio
         ++ EvOpen "/dev/dri/card0" (Z.lor O_RDWR O_CLOEXEC) fd :: rest.
Proof.
  split.
  - apply (proj1 (validation_rejects_invalid_entries _ _ stdio)).
    right; right. exists "-1"%string. split; [reflexivity|].
    vm_compute. reflexivity.
  - apply (proj2 (validation_rejects_invalid_entries _ card0 stdio)
             "/dev/dri/card0"%string "0"%string); reflexivity || (vm_compute; discriminate).
Defined.

(** C5, at a process started with descriptor 0 closed.  The node of the
    first card opens on descriptor 0 and libdrm has no resource description
    for it: the card is rejected, no [close] is made for descriptor 0, the
    second card is probed next, and when the detector returns descriptor 0
    is still open on the node of the rejected card. *)
Theorem rejected_candidate_fd0_not_closed :
  detectDrmDevice (host true None (Some kms)) no_stdin =
    (Returned "/dev/dri/card1",
     {| fds := <[0 := "/dev/dri/card0"]> (fds no_stdin);
        trace := [EvOpen "/dev/dri/card0" (Z.lor O_RDWR O_CLOEXEC) 0;
                  EvGetResources 0;
                  EvOpen "/dev/dri/card1" (Z.lor O_RDWR O_CLOEXEC) 3;
                  EvGetResources 3; EvFreeResources; EvClose 3] |})
  /\ fds (snd (detectDrmDevice (host true None (Some kms)) no_stdin)) !! 0
     = Some "/dev/dri/card0".
Proof. split; vm_compute; reflexivity. Qed.

(** C6, as amended.  For every device that passes validation, the one
    [open] call of the probe is on the node of the device with the flags
    [O_RDWR | O_CLOEXEC]: read-write and close-on-exec, and the
    non-blocking flag is not among them. *)
Theorem candidate_opened_rdwr_cloexec (w : World) (d : udev_device)
    (f : string) (σ : OS) :
  valid_device d = Some f ->
  opens (trace (snd (isDrmDevice w d σ))) =
    opens (trace σ) ++ [(f, Z.lor O_RDWR O_CLOEXEC)]
  /\ Z.land (Z.lor O_RDWR O_CLOEXEC) O_RDWR = O_RDWR
  /\ Z.land (Z.lor O_RDWR O_CLOEXEC) O_CLOEXEC = O_CLOEXEC
  /\ Z.land (Z.lor O_RDWR O_CLOEXEC) O_NONBLOCK = 0.
Proof.
  intros Hv. rewrite isDrmDevice_opens, Hv. repeat split.
Qed.

Lemma candidate_opened_rdwr_cloexec_witness :
  opens (trace (snd (isDrmDevice (host true (Some kms) None) card0 stdio))) =
    opens (trace stdio) ++ [("/dev/dri/card0"%string, Z.lor O_RDWR O_CLOEXEC)]
  /\ Z.land (Z.lor O_RDWR O_CLOEXEC) O_RDWR = O_RDWR
  /\ Z.land (Z.lor O_RDWR O_CLOEXEC) O_CLOEXEC = O_CLOEXEC
  /\ Z.land (Z.lor O_RDWR O_CLOEXEC) O_NONBLOCK = 0.
Proof.
  apply (candidate_opened_rdwr_cloexec (host true (Some kms) None) card0
           "/dev/dri/card0" stdio).
  reflexivity.
Defined.

(** C6, as stated, fails: [card0] passes validation, and the flags of the
    [open] call made for it are not read-write, non-blocking and
    close-on-exec. *)
Lemma candidate_not_opened_nonblocking :
  valid_device card0 = Some "/dev/dri/card0"%string
  /\ opens (trace (snd (isDrmDevice (host true (Some kms) None) card0 stdio)))
     <> [("/dev/dri/card0"%string,
          Z.lor (Z.lor O_RDWR O_NONBLOCK) O_CLOEXEC)].
Proof. split; [reflexivity|]. vm_compute. discriminate. Qed.

(** C9, at a process started with descriptor 0 closed.  The node of the
    first card opens on descriptor 0 and the card is accepted: the
    detector returns its path, no [close] is made, and descriptor 0 is
    still open on the node after the return. *)
Theorem accepted_candidate_fd0_not_closed :
  detectDrmDevice (host true (Some kms) (Some kms)) no_stdin =
    (Returned "/dev/dri/card0",
     {| fds := <[0 := "/dev/dri/card0"]> (fds no_stdin);
        trace := [EvOpen "/dev/dri/card0" (Z.lor O_RDWR O_CLOEXEC) 0;
                  EvGetResources 0; EvFreeResources] |})
  /\ fds (snd (detectDrmDevice (host true (Some kms) (Some kms)) no_stdin))
       !! 0
     = Some "/dev/dri/card0".
Proof. split; vm_compute; reflexivity. Qed.

(** C10.  An entry with a null name, and an entry for which libudev builds
    no device, is passed over without any call and without any change of
    state: enumeration goes on with the next entry; and the detector
    returns the same result in the same state as on the scanned list with
    all such entries removed, so they neither stop the enumeration, nor
    raise, nor change which entry is accepted. *)
Theorem unresolved_entries_skipped (w : World) :
  (forall rest σ, foreach_entry w (None :: rest) σ = foreach_entry w rest σ)
  /\ (forall path rest σ,
        udev_device_new_from_syspath w path = None ->
        foreach_entry w (Some path :: rest) σ = foreach_entry w rest σ)
  /\ (forall σ,
        detectDrmDevice w σ =
          detectDrmDevice
            (with_entries w (resolved w (udev_enumerate_get_list_entry w))) σ)
  /\ (forall σ, exists s, fst (detectDrmDevice w σ) = Returned s).
Proof.
  repeat split.
  - intros path rest σ H. by apply foreach_entry_null_device.
  - intros σ. destruct (setup_ok w) eqn:Hs.
    + rewrite !detectDrmDevice_setup_ok by done. simpl.
      by rewrite foreach_entry_with_entries, foreach_entry_resolved.
    + by rewrite !detectDrmDevice_setup_failed.
  - intros σ. rewrite detectDrmDevice_result. eauto.
Qed.

Lemma unresolved_entries_skipped_witness :
  foreach_entry (host true None (Some kms))
    [Some "/sys/class/drm/card7"%string; Some sys_card1] stdio
  = foreach_entry (host true None (Some kms)) [Some sys_card1] stdio.
Proof.
  apply (proj1 (proj2 (unresolved_entries_skipped
                         (host true None (Some kms))))).
  reflexivity.
Defined.

End DrmSpec.

(** * Further properties of the detector and of [Exception] *)

Module DrmMore.
Import Drm DrmFacts.

Section Descriptors.

Variable w : World.

(** What a probe does to the descriptor table: nothing, or, when
    descriptor 0 was free, descriptor 0 is left open on some node. *)
Lemma isDrmDevice_fds_cases (d : udev_device) (σ : OS) :
  fds (snd (isDrmDevice w d σ)) = fds σ
  \/ (fds σ !! 0 = None
      /\ exists f, fds (snd (isDrmDevice w d σ)) = <[0 := f]> (fds σ)).
Proof.
  destruct (fds σ !! 0) as [node|] eqn:H0.
  - left. apply isDrmDevice_fds_stdin. by eexists.
  - destruct (valid_device d) as [f|] eqn:Hv.
    + destruct (openable w f (Z.lor O_RDWR O_CLOEXEC)) eqn:Ho.
      * right. split; [done|]. exists f.
        by apply isDrmDevice_fd0_stays_open.
      * left. by rewrite (isDrmDevice_unopenable w d f σ Hv Ho).
    + left. by rewrite (isDrmDevice_invalid w d σ Hv).
Qed.

Lemma foreach_entry_fds_cases (entries : list (option string)) (σ : OS) :
  fds (snd (foreach_entry w entries σ)) = fds σ
  \/ (fds σ !! 0 = None
      /\ exists f, fds (snd (foreach_entry w entries σ)) = <[0 := f]> (fds σ)).
Proof.
  revert σ. induction entries as [|entry rest IH]; intros σ; [by left|].
  destruct (entry_device w entry) as [d|] eqn:Hd.
  - rewrite (foreach_entry_device w entry d rest σ Hd).
    destruct (isDrmDevice_fds_cases d σ) as [Heq|(H0 & f & Heq)];
      destruct (isDrmDevice w d σ) as [[|] σ']; simpl in *.
    + by left.
    + rewrite <- Heq. apply IH.
    + right. eauto.
    + right. split; [done|]. exists f.
      rewrite foreach_entry_fds_stdin; [done|].
      rewrite Heq, lookup_insert_eq. by eexists.
  - rewrite (foreach_entry_unresolved w entry rest σ Hd). apply IH.
Qed.

Lemma detectDrmDevice_fds_cases (σ : OS) :
  fds (snd (detectDrmDevice w σ)) = fds σ
  \/ (fds σ !! 0 = None
      /\ exists f, fds (snd (detectDrmDevice w σ)) = <[0 := f]> (fds σ)).
Proof.
  destruct (setup_ok w) eqn:Hs.
  - rewrite detectDrmDevice_setup_ok by done. apply foreach_entry_fds_cases.
  - rewrite detectDrmDevice_setup_failed by done. by left.
Qed.

End Descriptors.

Section Calls.

Variable w : World.

(** The calls one probe adds, and the descriptors they are made on: a
    [close] or a [drmModeGetResources] is only ever made on the
    descriptor the probe's own [open] returned, which was free before. *)
Lemma isDrmDevice_calls (d : udev_device) (σ : OS) :
  exists new,
    trace (snd (isDrmDevice w d σ)) = trace σ ++ new
    /\ forall fd, EvClose fd ∈ new \/ EvGetResources fd ∈ new ->
                  fds σ !! fd = None.
Proof.
  pose proof (lowest_free_fresh (fds σ)) as Hfresh.
  destruct (valid_device d) as [f|] eqn:Hv.
  - destruct (openable w f (Z.lor O_RDWR O_CLOEXEC)) eqn:Ho.
    + rewrite (isDrmDevice_openable w d f σ Hv Ho). simpl.
      eexists. split; [reflexivity|].
      intros fd Hin.
      assert (fd = lowest_free (fds σ)) as ->; [|done].
      destruct (drm_resources w f), (0 <? lowest_free (fds σ));
        simpl in Hin; destruct Hin as [Hin|Hin];
        repeat (apply elem_of_cons in Hin as [Hin|Hin];
                [by inversion Hin|]);
        by apply elem_of_nil in Hin.
    + rewrite (isDrmDevice_unopenable w d f σ Hv Ho). simpl.
      eexists. split; [reflexivity|].
      intros fd [Hin|Hin];
        apply elem_of_cons in Hin as [Hin|Hin]; try done;
        by apply elem_of_nil in Hin.
  - rewrite (isDrmDevice_invalid w d σ Hv).
    exists []. split; [by rewrite app_nil_r|].
    intros fd [Hin|Hin]; by apply elem_of_nil in Hin.
Qed.

(** A probe never removes a descriptor that was open before it. *)
Lemma isDrmDevice_fds_kept (d : udev_device) (σ : OS) (fd : Z) :
  fds (snd (isDrmDevice w d σ)) !! fd = None -> fds σ !! fd = None.
Proof.
  destruct (isDrmDevice_fds_cases w d σ) as [->|(H0 & f & ->)]; [done|].
  destruct (decide (fd = 0)) as [->|Hne]; [done|].
  by rewrite lookup_insert_ne.
Qed.

Lemma foreach_entry_calls (entries : list (option string)) (σ : OS) :
  exists new,
    trace (snd (foreach_entry w entries σ)) = trace σ ++ new
    /\ forall fd, EvClose fd ∈ new \/ EvGetResources fd ∈ new ->
                  fds σ !! fd = None.
Proof.
  revert σ. induction entries as [|entry rest IH]; intros σ.
  { exists []. split; [by rewrite app_nil_r|].
    intros fd [Hin|Hin]; by apply elem_of_nil in Hin. }
  destruct (entry_device w entry) as [d|] eqn:Hd.
  - rewrite (foreach_entry_device w entry d rest σ Hd).
    destruct (isDrmDevice_calls d σ) as (new1 & Htr1 & Hnew1).
    pose proof (isDrmDevice_fds_kept d σ) as Hkept.
    destruct (isDrmDevice w d σ) as [[|] σ']; simpl in *; [eauto|].
    destruct (IH σ') as (new2 & Htr2 & Hnew2).
    exists (new1 ++ new2). split.
    + by rewrite Htr2, Htr1, app_assoc.
    + intros fd Hin. rewrite !elem_of_app in Hin.
      destruct Hin as [[Hin|Hin]|[Hin|Hin]]; eauto.
  - rewrite (foreach_entry_unresolved w entry rest σ Hd). apply IH.
Qed.

(** The [open] calls made while passing over a run of rejected entries:
    one for each entry that has a valid device, in the order of
    enumeration; then enumeration goes on with what follows. *)
Lemma foreach_entry_rejected_prefix (pre rest : list (option string))
    (σ : OS) :
  forallb (rejects w) pre = true ->
  exists σ',
    foreach_entry w (pre ++ rest) σ = foreach_entry w rest σ'
    /\ opens (trace σ') =
         opens (trace σ)
         ++ map (fun f => (f, Z.lor O_RDWR O_CLOEXEC))
              (omap (entry_node w) pre).
Proof.
  revert σ. induction pre as [|entry pre IH]; intros σ Hrej.
  { exists σ. simpl. by rewrite app_nil_r. }
  simpl in Hrej. apply andb_prop in Hrej as [Hentry Hpre].
  unfold rejects in Hentry.
  change (omap (entry_node w) (entry :: pre))
    with (match entry_node w entry with
          | Some f => f :: omap (entry_node w) pre
          | None => omap (entry_node w) pre
          end).
  unfold entry_node at 1.
  rewrite <- app_comm_cons.
  destruct (entry_device w entry) as [d|] eqn:Hd.
  - rewrite (foreach_entry_device w entry d (pre ++ rest) σ Hd).
    pose proof (isDrmDevice_qualifies w d σ) as Hq.
    pose proof (isDrmDevice_opens w d σ) as Ho.
    destruct (isDrmDevice w d σ) as [b σ1]. simpl in Hq, Ho. subst b.
    destruct (qualifies w d); [done|].
    destruct (IH σ1 Hpre) as (σ' & Heq & Hopens).
    exists σ'. split; [done|].
    rewrite Hopens, Ho.
    destruct (valid_device d); simpl; by rewrite <- app_assoc.
  - rewrite (foreach_entry_unresolved w entry (pre ++ rest) σ Hd).
    apply IH, Hpre.
Qed.

(** A path found by [first_qualifying] is the path of an enumerated entry
    that qualifies. *)
Lemma first_qualifying_Some (entries : list (option string)) (f : string) :
  first_qualifying w entries = Some f ->
  exists entry d,
    entry ∈ entries /\ entry_device w entry = Some d
    /\ qualifies w d = Some f.
Proof.
  induction entries as [|entry rest IH]; simpl; [done|].
  destruct (entry_device w entry) as [d|] eqn:Hd.
  - destruct (qualifies w d) as [f'|] eqn:Hq.
    + intros [= ->]. exists entry, d. split; [left|done].
    + intros (e & d' & He & H)%IH. exists e, d'. split; [by right|done].
  - intros (e & d' & He & H)%IH. exists e, d'. split; [by right|done].
Qed.

Lemma qualifies_inv (d : udev_device) (f : string) :
  qualifies w d = Some f ->
  valid_device d = Some f
  /\ openable w f (Z.lor O_RDWR O_CLOEXEC) = true
  /\ exists r, drm_resources w f = Some r /\ has_pipeline r = true.
Proof.
  unfold qualifies. destruct (valid_device d) as [f'|]; [|done].
  destruct (openable w f' _) eqn:Ho; [|done].
  destruct (drm_resources w f') as [r|] eqn:Hr; [|done].
  destruct (has_pipeline r) eqn:Hp; [|done].
  intros [= <-]. eauto.
Qed.

End Calls.

Section Protocol.

Variable w : World.

Lemma protocol_run_app (s : probe_state) (tr1 tr2 : list event) :
  protocol_run s (tr1 ++ tr2) =
    match protocol_run s tr1 with
    | Some s' => protocol_run s' tr2
    | None => None
    end.
Proof.
  revert s. induction tr1 as [|ev tr1 IH]; intros s; simpl; [done|].
  destruct (protocol_step s ev); [apply IH|done].
Qed.

(** The calls of one probe follow the protocol, from any state in which
    the probe before is over, and end in such a state. *)
Lemma isDrmDevice_protocol (d : udev_device) (σ : OS) (s : probe_state) :
  settled s = true ->
  exists new s',
    trace (snd (isDrmDevice w d σ)) = trace σ ++ new
    /\ protocol_run s new = Some s' /\ settled s' = true.
Proof.
  intros Hs.
  pose proof (lowest_free_nonneg (fds σ)) as Hnn.
  destruct (valid_device d) as [f|] eqn:Hv.
  - destruct (openable w f (Z.lor O_RDWR O_CLOEXEC)) eqn:Ho.
    + rewrite (isDrmDevice_openable w d f σ Hv Ho). simpl.
      destruct (Z.ltb_spec (lowest_free (fds σ)) 0) as [|Hge]; [lia|].
      destruct (drm_resources w f), (0 <? lowest_free (fds σ)) eqn:Hpos;
        (eexists; eexists; split; [reflexivity|]);
        simpl; rewrite Hs;
        (destruct (Z.ltb_spec (lowest_free (fds σ)) 0); [lia|]);
        simpl; rewrite ?Z.eqb_refl, ?Hpos; simpl; rewrite ?Hpos;
        (split; [reflexivity|]); simpl; by rewrite ?Hpos.
    + rewrite (isDrmDevice_unopenable w d f σ Hv Ho). simpl.
      eexists. eexists. split; [reflexivity|].
      simpl. by rewrite Hs.
  - rewrite (isDrmDevice_invalid w d σ Hv).
    exists [], s. by rewrite app_nil_r.
Qed.

Lemma foreach_entry_protocol (entries : list (option string)) (σ : OS)
    (s : probe_state) :
  settled s = true ->
  exists new s',
    trace (snd (foreach_entry w entries σ)) = trace σ ++ new
    /\ protocol_run s new = Some s' /\ settled s' = true.
Proof.
  revert σ s. induction entries as [|entry rest IH]; intros σ s Hs.
  { exists [], s. by rewrite app_nil_r. }
  destruct (entry_device w entry) as [d|] eqn:Hd.
  - rewrite (foreach_entry_device w entry d rest σ Hd).
    destruct (isDrmDevice_protocol d σ s Hs) as (new1 & s1 & Htr1 & Hrun1 & Hs1).
    destruct (isDrmDevice w d σ) as [[|] σ']; simpl in *; [eauto|].
    destruct (IH σ' s1 Hs1) as (new2 & s2 & Htr2 & Hrun2 & Hs2).
    exists (new1 ++ new2), s2. split; [|split; [|done]].
    + by rewrite Htr2, Htr1, app_assoc.
    + by rewrite protocol_run_app, Hrun1.
  - rewrite (foreach_entry_unresolved w entry rest σ Hd). by apply IH.
Qed.

End Protocol.

(** The digits of a sysnum of decimal digits are read to the end, and
    their value is below the power of ten of their number. *)
Lemma strtol_digits_bound (s : string) (acc : Z) :
  all_digits s = true -> 0 <= acc ->
  0 <= strtol_digits acc s
  <= (acc + 1) * 10 ^ Z.of_nat (String.length s) - 1.
Proof.
  revert acc. induction s as [|c s IH]; intros acc Hd Hacc.
  { simpl. lia. }
  simpl in Hd |- *. unfold digit_val in *.
  destruct ((48 <=? Z.of_nat (nat_of_ascii c))
            && (Z.of_nat (nat_of_ascii c) <=? 57)) eqn:Hc; [|done].
  apply andb_prop in Hc as [H1%Z.leb_le H2%Z.leb_le].
  set (d := Z.of_nat (nat_of_ascii c) - 48) in *.
  assert (Hacc' : 0 <= Z.min (10 * acc + d) (2 ^ 63)) by lia.
  specialize (IH _ Hd Hacc').
  change (String.length (String c s)) with (S (String.length s)).
  rewrite Nat2Z.inj_succ, Z.pow_succ_r by lia.
  assert (0 < 10 ^ Z.of_nat (String.length s)) by (apply Z.pow_pos_nonneg; lia).
  split; [lia|]. nia.
Qed.

Lemma all_digits_skip_space (s : string) :
  all_digits s = true -> skip_space s = s.
Proof.
  destruct s as [|c s]; simpl; [done|].
  unfold digit_val, isspace.
  destruct ((48 <=? Z.of_nat (nat_of_ascii c))
            && (Z.of_nat (nat_of_ascii c) <=? 57)) eqn:Hc; [|done].
  apply andb_prop in Hc as [H1%Z.leb_le H2%Z.leb_le]. intros _.
  destruct (Z.eqb_spec (Z.of_nat (nat_of_ascii c)) 32); [lia|].
  destruct (Z.leb_spec (Z.of_nat (nat_of_ascii c)) 13); [lia|].
  by rewrite andb_false_r.
Qed.

Lemma all_digits_strtol (s : string) :
  all_digits s = true -> strtol s = Z.min (strtol_digits 0 s) LONG_MAX.
Proof.
  intros Hd. unfold strtol. rewrite (all_digits_skip_space s Hd).
  destruct s as [|c s']; [done|].
  destruct c as [[] [] [] [] [] [] [] []];
    first [ discriminate Hd | reflexivity ].
Qed.

Lemma int_of_long_small (z : Z) :
  - 2 ^ 31 <= z < 2 ^ 31 -> int_of_long z = z.
Proof.
  intros Hz. unfold int_of_long. rewrite Z.mod_small; lia.
Qed.

(** A sysnum of at most nine decimal digits reads as a number that is not
    negative. *)
Lemma short_digits_atoi (s : string) :
  all_digits s = true -> (String.length s <= 9)%nat -> 0 <= atoi s.
Proof.
  intros Hd Hlen. unfold atoi. rewrite (all_digits_strtol s Hd).
  destruct (strtol_digits_bound s 0 Hd (Z.le_refl 0)) as [Hlo Hhi].
  assert (10 ^ Z.of_nat (String.length s) <= 10 ^ 9)
    by (apply Z.pow_le_mono_r; lia).
  unfold LONG_MAX. rewrite int_of_long_small; lia.
Qed.

End DrmMore.

Module DrmProperties.
Import Drm DrmFacts DrmMore.

(** X1.  The descriptor table after a call of [detectDrmDevice] is the
    table before the call, except that descriptor 0, if it was free, may
    be left open on a node.  So a call leaves at most one descriptor
    behind; it leaves none when descriptor 0 is in use at the call; and
    every descriptor above 0 is, after the call, what it was before. *)
Theorem detectDrmDevice_descriptor_table (w : World) (σ : OS) :
  (fds (snd (detectDrmDevice w σ)) = fds σ
   \/ (fds σ !! 0 = None
       /\ exists f, fds (snd (detectDrmDevice w σ)) = <[0 := f]> (fds σ)))
  /\ (is_Some (fds σ !! 0) -> fds (snd (detectDrmDevice w σ)) = fds σ)
  /\ (forall fd, 0 < fd ->
        fds (snd (detectDrmDevice w σ)) !! fd = fds σ !! fd).
Proof.
  pose proof (detectDrmDevice_fds_cases w σ) as Hcases.
  split; [exact Hcases|]. split.
  - intros [node H0].
    destruct Hcases as [Heq|(Hfree & _)]; [done|congruence].
  - intros fd Hfd.
    destruct Hcases as [->|(_ & f & ->)]; [done|].
    apply lookup_insert_ne. lia.
Qed.

Lemma detectDrmDevice_descriptor_table_witness :
  fds (snd (detectDrmDevice (host true None (Some kms)) stdio)) = fds stdio
  /\ fds (snd (detectDrmDevice (host true None (Some kms)) no_stdin)) !! 2
     = fds no_stdin !! 2.
Proof.
  split.
  - apply (proj1 (proj2 (detectDrmDevice_descriptor_table
                           (host true None (Some kms)) stdio))).
    vm_compute. eauto.
  - apply (proj2 (proj2 (detectDrmDevice_descriptor_table
                           (host true None (Some kms)) no_stdin))).
    lia.
Defined.

(** X3.  When one of the five preparation steps fails, [detectDrmDevice]
    returns the empty string without probing anything: no call to [open],
    to libdrm or to [close] is made and the descriptor table is
    untouched. *)
Theorem detectDrmDevice_setup_failure_no_call (w : World) (σ : OS) :
  udev_new w = false
  \/ udev_enumerate_new w = false
  \/ udev_enumerate_add_match_subsystem w "drm" <> 0
  \/ udev_enumerate_add_match_sysname w "card[0-9]*" <> 0
  \/ udev_enumerate_scan_devices w <> 0 ->
  detectDrmDevice w σ = (Returned "", σ).
Proof.
  intros Hfail. apply detectDrmDevice_setup_failed.
  unfold setup_ok.
  destruct Hfail as [->|[->|[H|[H|H]]]];
    rewrite ?andb_false_r; try done;
    apply Z.eqb_neq in H; rewrite H; by rewrite ?andb_false_r.
Qed.

(** A host on which the scan fails with -EINVAL. *)
Lemma detectDrmDevice_setup_failure_no_call_witness :
  detectDrmDevice
    {| udev_new := true;
       udev_enumerate_new := true;
       udev_enumerate_add_match_subsystem := fun _ => 0;
       udev_enumerate_add_match_sysname := fun _ => 0;
       udev_enumerate_scan_devices := -22;
       udev_enumerate_get_list_entry := [Some sys_card0];
       udev_device_new_from_syspath := fun _ => Some card0;
       openable := fun _ _ => true;
       drm_resources := fun _ => Some kms |} no_stdin
  = (Returned "", no_stdin).
Proof.
  apply detectDrmDevice_setup_failure_no_call.
  do 4 right. simpl. lia.
Defined.

(** X4.  [detectDrmDevice] never closes, and never queries through
    libdrm, a descriptor that was open when it was called: the calls it
    adds contain no [close] and no [drmModeGetResources] on such a
    descriptor. *)
Theorem detectDrmDevice_spares_open_descriptors (w : World) (σ : OS)
    (fd : Z) :
  is_Some (fds σ !! fd) ->
  exists new,
    trace (snd (detectDrmDevice w σ)) = trace σ ++ new
    /\ (EvClose fd ∉ new)
    /\ (EvGetResources fd ∉ new).
Proof.
  intros [node Hfd].
  assert (exists new,
    trace (snd (detectDrmDevice w σ)) = trace σ ++ new
    /\ forall fd', EvClose fd' ∈ new \/ EvGetResources fd' ∈ new ->
                   fds σ !! fd' = None) as (new & Htr & Hnew).
  { destruct (setup_ok w) eqn:Hs.
    - rewrite detectDrmDevice_setup_ok by done. apply foreach_entry_calls.
    - rewrite detectDrmDevice_setup_failed by done.
      exists []. split; [by rewrite app_nil_r|].
      intros fd' [Hin|Hin]; by apply elem_of_nil in Hin. }
  exists new. split; [done|].
  split; intros Hin; specialize (Hnew fd); rewrite Hfd in Hnew;
    by (discriminate Hnew; eauto).
Qed.

Lemma detectDrmDevice_spares_open_descriptors_witness :
  exists new,
    trace (snd (detectDrmDevice (host true (Some kms) None) no_stdin))
    = trace no_stdin ++ new
    /\ (EvClose 1 ∉ new)
    /\ (EvGetResources 1 ∉ new).
Proof.
  apply (detectDrmDevice_spares_open_descriptors
           (host true (Some kms) None) no_stdin 1).
  vm_compute. eauto.
Defined.

(** X5.  The detector opens nodes in the order of enumeration, one [open]
    for each entry whose device passes validation, and stops at the first
    entry that qualifies: no entry after it is opened.  When no entry
    qualifies, every entry with a valid device is opened exactly once. *)
Theorem detectDrmDevice_opens_in_order (w : World) (σ : OS) :
  setup_ok w = true ->
  (forall pre entry post d f,
     udev_enumerate_get_list_entry w = pre ++ entry :: post ->
     forallb (rejects w) pre = true ->
     entry_device w entry = Some d ->
     qualifies w d = Some f ->
     opens (trace (snd (detectDrmDevice w σ))) =
       opens (trace σ)
       ++ map (fun n => (n, Z.lor O_RDWR O_CLOEXEC))
            (omap (entry_node w) (pre ++ [entry])))
  /\ (forallb (rejects w) (udev_enumerate_get_list_entry w) = true ->
      opens (trace (snd (detectDrmDevice w σ))) =
        opens (trace σ)
        ++ map (fun n => (n, Z.lor O_RDWR O_CLOEXEC))
             (omap (entry_node w) (udev_enumerate_get_list_entry w))).
Proof.
  intros Hs. rewrite (detectDrmDevice_setup_ok w σ Hs). split.
  - intros pre entry post d f -> Hpre Hd Hq.
    destruct (foreach_entry_rejected_prefix w pre (entry :: post) σ Hpre)
      as (σ' & -> & Hopens).
    rewrite (foreach_entry_device w entry d post σ' Hd).
    pose proof (isDrmDevice_qualifies w d σ') as Hb.
    pose proof (isDrmDevice_opens w d σ') as Ho.
    destruct (isDrmDevice w d σ') as [b σ1]. simpl in Hb, Ho. subst b.
    rewrite Hq. simpl.
    apply qualifies_inv in Hq as (Hv & _).
    rewrite Ho, Hv, Hopens, omap_app, map_app, <- app_assoc. simpl.
    unfold entry_node. by rewrite Hd, Hv.
  - intros Hall.
    destruct (foreach_entry_rejected_prefix w _ [] σ Hall)
      as (σ' & Heq & Hopens).
    rewrite app_nil_r in Heq. by rewrite Heq.
Qed.

Lemma detectDrmDevice_opens_in_order_witness :
  opens (trace (snd (detectDrmDevice
                       (with_entries (host false (Some kms) (Some kms))
                          [Some sys_card0; None; Some sys_card1;
                           Some sys_card0])
                       stdio)))
  = opens (trace stdio)
    ++ [("/dev/dri/card0"%string, Z.lor O_RDWR O_CLOEXEC);
        ("/dev/dri/card1"%string, Z.lor O_RDWR O_CLOEXEC)]
  /\ opens (trace (snd (detectDrmDevice (host true None None) stdio)))
     = opens (trace stdio)
       ++ [("/dev/dri/card0"%string, Z.lor O_RDWR O_CLOEXEC);
           ("/dev/dri/card1"%string, Z.lor O_RDWR O_CLOEXEC)].
Proof.
  split.
  - apply (proj1 (detectDrmDevice_opens_in_order
                    (with_entries (host false (Some kms) (Some kms))
                       [Some sys_card0; None; Some sys_card1;
                        Some sys_card0])
                    stdio eq_refl)
             [Some sys_card0; None] (Some sys_card1) [Some sys_card0]
             card1 "/dev/dri/card1"); reflexivity.
  - apply (proj2 (detectDrmDevice_opens_in_order
                    (host true None None) stdio eq_refl)).
    reflexivity.
Defined.

(** X6.  A path that [detectDrmDevice] returns, unless it is empty, is the
    device node of an enumerated device whose sysnum reads as a number
    that is not negative, whose node opens read-write, and for which libdrm
    reports at least one crtc, one connector and one encoder. *)
Theorem detectDrmDevice_returns_usable_node (w : World) (σ : OS)
    (f : string) :
  fst (detectDrmDevice w σ) = Returned f ->
  f <> ""%string ->
  exists entry d s r,
    entry ∈ udev_enumerate_get_list_entry w
    /\ entry_device w entry = Some d
    /\ udev_device_get_devnode d = Some f
    /\ udev_device_get_sysnum d = Some s /\ 0 <= atoi s
    /\ openable w f (Z.lor O_RDWR O_CLOEXEC) = true
    /\ drm_resources w f = Some r
    /\ 1 <= count_crtcs r /\ 1 <= count_connectors r
    /\ 1 <= count_encoders r.
Proof.
  rewrite detectDrmDevice_result. intros [= Hres] Hne.
  destruct (setup_ok w); [|done].
  destruct (first_qualifying w _) as [f'|] eqn:Hfq; [|done].
  simpl in Hres. subst f'.
  apply first_qualifying_Some in Hfq as (entry & d & Hin & Hd & Hq).
  apply qualifies_inv in Hq as (Hv & Ho & r & Hr & Hp).
  apply valid_device_inv in Hv as (Hf & s & Hsn & Hge).
  unfold has_pipeline in Hp.
  apply andb_prop in Hp as [[H1%Z.leb_le H2%Z.leb_le]%andb_prop H3%Z.leb_le].
  exists entry, d, s, r. repeat split; done.
Qed.

Lemma detectDrmDevice_returns_usable_node_witness :
  exists entry d s r,
    entry ∈ udev_enumerate_get_list_entry (host true None (Some kms))
    /\ entry_device (host true None (Some kms)) entry = Some d
    /\ udev_device_get_devnode d = Some "/dev/dri/card1"%string
    /\ udev_device_get_sysnum d = Some s /\ 0 <= atoi s
    /\ openable (host true None (Some kms)) "/dev/dri/card1"
         (Z.lor O_RDWR O_CLOEXEC) = true
    /\ drm_resources (host true None (Some kms)) "/dev/dri/card1" = Some r
    /\ 1 <= count_crtcs r /\ 1 <= count_connectors r
    /\ 1 <= count_encoders r.
Proof.
  apply (detectDrmDevice_returns_usable_node
           (host true None (Some kms)) no_stdin "/dev/dri/card1").
  - reflexivity.
  - discriminate.
Defined.

(** X7.  A device with a device node and a sysnum of at most nine decimal
    digits, that is, any card number up to 999999999, passes the sign test
    on [atoi(sysnum)] and goes on to the [open] call on its node. *)
Theorem numeric_sysnum_passes_validation (w : World) (d : udev_device)
    (f s : string) (σ : OS) :
  udev_device_get_devnode d = Some f ->
  udev_device_get_sysnum d = Some s ->
  all_digits s = true ->
  (String.length s <= 9)%nat ->
  exists fd rest,
    trace (snd (isDrmDevice w d σ)) =
      trace σ ++ EvOpen f (Z.lor O_RDWR O_CLOEXEC) fd :: rest.
Proof.
  intros Hf Hs Hd Hlen.
  pose proof (short_digits_atoi s Hd Hlen) as Hge.
  assert (Hv : valid_device d = Some f).
  { unfold valid_device. rewrite Hf, Hs.
    by destruct (Z.leb_spec 0 (atoi s)); [|lia]. }
  destruct (openable w f (Z.lor O_RDWR O_CLOEXEC)) eqn:Ho.
  - rewrite (isDrmDevice_openable w d f σ Hv Ho). simpl. eauto.
  - rewrite (isDrmDevice_unopenable w d f σ Hv Ho). simpl. eauto.
Qed.

Lemma numeric_sysnum_passes_validation_witness :
  exists fd rest,
    trace (snd (isDrmDevice (host false None None)
                  {| udev_device_get_devnode := Some "/dev/dri/card128";
                     udev_device_get_sysnum := Some "128" |} stdio)) =
      trace stdio
      ++ EvOpen "/dev/dri/card128" (Z.lor O_RDWR O_CLOEXEC) fd :: rest.
Proof.
  apply (numeric_sysnum_passes_validation (host false None None)
           {| udev_device_get_devnode := Some "/dev/dri/card128";
              udev_device_get_sysnum := Some "128" |}
           "/dev/dri/card128" "128" stdio).
  - reflexivity.
  - reflexivity.
  - reflexivity.
  - simpl. lia.
Defined.

(** The sign test where the number read does not fit an [int]: the sysnum
    2147483648 reads as -2147483648 and the device is rejected without a
    call; the sysnum -2147483649 reads as 2147483647 and the device is
    probed. *)
Example sign_test_beyond_int :
  atoi "2147483648" = -2147483648
  /\ atoi "-2147483649" = 2147483647
  /\ isDrmDevice (host true (Some kms) None)
       {| udev_device_get_devnode := Some "/dev/dri/card0";
          udev_device_get_sysnum := Some "2147483648" |} stdio
     = (false, stdio)
  /\ fst (isDrmDevice (host true (Some kms) None)
            {| udev_device_get_devnode := Some "/dev/dri/card0";
               udev_device_get_sysnum := Some "-2147483649" |} stdio)
     = true.
Proof. repeat split. Qed.

(** X8.  [detectDrmDevice] makes at most one [open] call for each
    enumerated entry, whatever the outcome. *)
Theorem detectDrmDevice_open_count (w : World) (σ : OS) :
  (length (opens (trace (snd (detectDrmDevice w σ))))
   <= length (opens (trace σ))
      + length (udev_enumerate_get_list_entry w))%nat.
Proof.
  destruct (setup_ok w) eqn:Hs.
  - rewrite detectDrmDevice_setup_ok by done.
    generalize (udev_enumerate_get_list_entry w) as entries.
    intros entries. revert σ.
    induction entries as [|entry rest IH]; intros σ; [simpl; lia|].
    change (length (entry :: rest)) with (S (length rest)).
    destruct (entry_device w entry) as [d|] eqn:Hd.
    + rewrite (foreach_entry_device w entry d rest σ Hd).
      pose proof (isDrmDevice_opens w d σ) as Ho.
      destruct (isDrmDevice w d σ) as [[|] σ1]; simpl in Ho |- *.
      * rewrite Ho, length_app.
        destruct (valid_device d); simpl; lia.
      * specialize (IH σ1). rewrite Ho, length_app in IH.
        destruct (valid_device d); simpl in IH; lia.
    + rewrite (foreach_entry_unresolved w entry rest σ Hd).
      specialize (IH σ). lia.
  - rewrite detectDrmDevice_setup_failed by done. simpl. lia.
Qed.

(** X10.  The calls [detectDrmDevice] makes follow the protocol of
    [protocol_step]: [drmModeGetResources] is called only on the
    descriptor that the [open] just before returned, never after a failed
    [open]; a resource description is freed only after it was queried;
    [close] is called at most once per [open], on the descriptor opened
    and only if it is above 0; and a node is opened only when the probe
    before it is over.  When the detector returns, no probe is under
    way. *)
Theorem detectDrmDevice_call_protocol (w : World) (σ : OS) :
  exists new s,
    trace (snd (detectDrmDevice w σ)) = trace σ ++ new
    /\ protocol_run Idle new = Some s
    /\ settled s = true.
Proof.
  destruct (setup_ok w) eqn:Hs.
  - rewrite detectDrmDevice_setup_ok by done.
    by apply foreach_entry_protocol.
  - rewrite detectDrmDevice_setup_failed by done.
    exists [], Idle. by rewrite app_nil_r.
Qed.

(** X11.  [isDrmDevice] answers true exactly for a device that has a
    device node and a sysnum that does not read as a negative number,
    whose node opens with [O_RDWR | O_CLOEXEC], and for which libdrm
    returns a resource description with at least one crtc, one connector
    and one encoder. *)
Theorem isDrmDevice_true_iff (w : World) (d : udev_device) (σ : OS) :
  fst (isDrmDevice w d σ) = true <->
  exists f s r,
    udev_device_get_devnode d = Some f
    /\ udev_device_get_sysnum d = Some s /\ 0 <= atoi s
    /\ openable w f (Z.lor O_RDWR O_CLOEXEC) = true
    /\ drm_resources w f = Some r
    /\ 1 <= count_crtcs r /\ 1 <= count_connectors r
    /\ 1 <= count_encoders r.
Proof.
  rewrite isDrmDevice_qualifies. split.
  - destruct (qualifies w d) as [f|] eqn:Hq; [intros _|done].
    apply qualifies_inv in Hq as (Hv & Ho & r & Hr & Hp).
    apply valid_device_inv in Hv as (Hf & s & Hsn & Hge).
    unfold has_pipeline in Hp.
    apply andb_prop in Hp
      as [[H1%Z.leb_le H2%Z.leb_le]%andb_prop H3%Z.leb_le].
    exists f, s, r. repeat split; done.
  - intros (f & s & r & Hf & Hsn & Hge & Ho & Hr & H1 & H2 & H3).
    unfold qualifies, valid_device, has_pipeline.
    rewrite Hf, Hsn.
    destruct (Z.leb_spec 0 (atoi s)); [|lia].
    rewrite Ho, Hr.
    destruct (Z.leb_spec 1 (count_crtcs r)); [|lia].
    destruct (Z.leb_spec 1 (count_connectors r)); [|lia].
    destruct (Z.leb_spec 1 (count_encoders r)); [|lia].
    done.
Qed.

Lemma isDrmDevice_true_iff_witness :
  fst (isDrmDevice (host true (Some kms) None) card0 no_stdin) = true.
Proof.
  apply (proj2 (isDrmDevice_true_iff (host true (Some kms) None) card0
                  no_stdin)).
  exists "/dev/dri/card0"%string, "0"%string, kms.
  repeat split; try reflexivity; vm_compute; discriminate.
Defined.

(** The monitor refuses a second [close], a query after a failed [open]
    and a [close] of a descriptor that was not opened. *)
Example protocol_run_refuses :
  protocol_run Idle
    [EvOpen "/dev/dri/card0" 524290 3; EvGetResources 3; EvClose 3;
     EvClose 3] = None
  /\ protocol_run Idle
       [EvOpen "/dev/dri/card0" 524290 (-1); EvGetResources (-1)] = None
  /\ protocol_run Idle [EvClose 0] = None.
Proof. repeat split. Qed.

(** X12.  Entries enumerated after an entry that qualifies have no effect:
    the detector returns the same result in the same state as on the
    scanned list cut off after that entry. *)
Theorem detectDrmDevice_ignores_later_entries (w : World) (σ : OS)
    (pre post : list (option string)) (entry : option string)
    (d : udev_device) (f : string) :
  udev_enumerate_get_list_entry w = pre ++ entry :: post ->
  entry_device w entry = Some d ->
  qualifies w d = Some f ->
  detectDrmDevice w σ = detectDrmDevice (with_entries w (pre ++ [entry])) σ.
Proof.
  intros Hl Hd Hq.
  destruct (setup_ok w) eqn:Hs.
  - rewrite !detectDrmDevice_setup_ok by done. simpl.
    rewrite foreach_entry_with_entries, Hl. clear Hl.
    revert σ. induction pre as [|e pre IH]; intros σ.
    + simpl app.
      rewrite !(foreach_entry_device w entry d _ σ Hd).
      pose proof (isDrmDevice_qualifies w d σ) as Hb. rewrite Hq in Hb.
      destruct (isDrmDevice w d σ) as [b σ']. simpl in Hb. by subst b.
    + rewrite <- !app_comm_cons.
      destruct (entry_device w e) as [d'|] eqn:Hd'.
      * rewrite !(foreach_entry_device w e d' _ σ Hd').
        destruct (isDrmDevice w d' σ) as [[|] σ']; [done|apply IH].
      * rewrite !(foreach_entry_unresolved w e _ σ Hd'). apply IH.
  - by rewrite !detectDrmDevice_setup_failed.
Qed.

Lemma detectDrmDevice_ignores_later_entries_witness :
  detectDrmDevice (host false None (Some kms)) no_stdin
  = detectDrmDevice
      (with_entries (host false None (Some kms))
         ([Some sys_card0; Some sys_card1] ++ []))
      no_stdin
  /\ detectDrmDevice
       (with_entries (host true None (Some kms))
          [None; Some sys_card1; Some sys_card0]) stdio
     = detectDrmDevice
         (with_entries
            (with_entries (host true None (Some kms))
               [None; Some sys_card1; Some sys_card0])
            ([None] ++ [Some sys_card1])) stdio.
Proof.
  split.
  - exact (detectDrmDevice_ignores_later_entries
             (host false None (Some kms)) no_stdin
             [Some sys_card0] [] (Some sys_card1) card1 "/dev/dri/card1"
             eq_refl eq_refl eq_refl).
  - exact (detectDrmDevice_ignores_later_entries
             (with_entries (host true None (Some kms))
                [None; Some sys_card1; Some sys_card0]) stdio
             [None] [Some sys_card0] (Some sys_card1) card1
             "/dev/dri/card1" eq_refl eq_refl eq_refl).
Defined.

End DrmProperties.

Module DisplayItfProperties.
Import DisplayItf.

(** X9.  Read as a NUL-terminated C string, the result of [what()] is the
    message up to its first NUL character: a message without a NUL reads
    back whole, and a message with an embedded NUL reads back cut off
    before it. *)
Theorem what_read_as_c_string (a b : string) :
  Forall (fun c => c <> Ascii.zero) (list_ascii_of_string a) ->
  read_cstr (what (Exception_ctor a)) = a
  /\ read_cstr (what (Exception_ctor (a ++ String Ascii.zero b))) = a.
Proof.
  unfold what, Exception_ctor, c_str. simpl.
  induction a as [|c a IH]; simpl.
  - intros _. done.
  - intros [Hc Hrest]%Forall_cons.
    destruct (Ascii.eqb_spec c Ascii.zero); [done|].
    destruct (IH Hrest) as [-> ->]. done.
Qed.

Lemma what_read_as_c_string_witness :
  read_cstr (what (Exception_ctor "No connector")) = "No connector"%string
  /\ read_cstr (what (Exception_ctor
                        ("No connector" ++ String Ascii.zero "HDMI-A-1")))
     = "No connector"%string.
Proof.
  apply (what_read_as_c_string "No connector" "HDMI-A-1").
  repeat constructor; discriminate.
Defined.

End DisplayItfProperties.
